(** * dora-arm-franka: the polling node of [dora_arm_franka/main.py]

    A shallow embedding of the node that polls a Franka arm over HTTP on
    every [tick] input, tracks whether the gripper holds an object, and
    republishes joints, gripper and pose as one vector.

    Python's [float] is IEEE 754 binary64, which is Rocq's primitive
    [float]; comparisons and the subtraction of timestamps below are the
    machine operations, NaN included.  Python exceptions are values of
    [exn]; code that can raise returns a [result]. *)

From Stdlib Require Import ZArith List Bool String Floats Lia.
Import ListNotations.

Set Warnings "-inexact-float".
Local Open Scope float_scope.

(** ** Python exceptions *)

Inductive exn : Type :=
| RequestException   (* requests.exceptions.RequestException and subclasses *)
| KeyError
| IndexError
| TypeError.

Inductive result (A : Type) : Type :=
| Ok (a : A)
| Raise (e : exn).
Arguments Ok {A} a.
Arguments Raise {A} e.

(** ** Module constants (main.py, lines 10-13) *)

Definition max_gripper_distance : float := 0.83.
Definition max_gripper_catch_distance : float := 0.7.
Definition min_gripper_distance : float := 0.02.
Definition GRASP_STABLE_DURATION : float := 0.8.

(** ** Grasp tracking state (main.py, lines 60-64) *)

Record grasp_state : Type := mk_grasp_state {
  in_range : bool;
  enter_time : option float;      (* [None] is Python's None *)
  is_stable_grasp : bool
}.

Definition initial_grasp_state : grasp_state :=
  {| in_range := false; enter_time := None; is_stable_grasp := false |}.

(** Line 76: [min_gripper_distance < cur_gripper < max_gripper_catch_distance]. *)
Definition cur_in_range (cur_gripper : float) : bool :=
  (min_gripper_distance <? cur_gripper) && (cur_gripper <? max_gripper_catch_distance).

(** Lines 79-94: one update of the tracking state.  In the branch that is
    already in range the code subtracts [enter_time] from the current time;
    with [enter_time] being None that subtraction raises TypeError. *)
Definition update (s : grasp_state) (cur_gripper current_time : float)
  : result grasp_state :=
  if cur_in_range cur_gripper then
    if negb (in_range s) then
      Ok {| in_range := true;
            enter_time := Some current_time;
            is_stable_grasp := false |}
    else
      match enter_time s with
      | None => Raise TypeError
      | Some t0 =>
          let duration := current_time - t0 in
          if GRASP_STABLE_DURATION <=? duration then
            Ok {| in_range := in_range s;
                  enter_time := enter_time s;
                  is_stable_grasp := true |}
          else Ok s
      end
  else
    Ok {| in_range := false; enter_time := None; is_stable_grasp := false |}.

(** Line 97: [1 if grasp_state["is_stable_grasp"] else 0]. *)
Definition stable_flag (s : grasp_state) : Z :=
  if is_stable_grasp s then 1%Z else 0%Z.

(** ** The remote arm service, as one tick sees it

    [requests.post(..., timeout=0.1)] either raises a subclass of
    [requests.exceptions.RequestException] (a timeout, a refused
    connection) or returns a response with a status code and a JSON
    object.  Of the JSON object the code reads a single named field,
    which can be missing, null, or carry the endpoint's payload: a list
    of joint angles for [getq], a distance for [get_gripper], a list of
    coordinates for [getpos_euler]. *)

Inductive json_field (A : Type) : Type :=
| Absent                 (* the object has no such key *)
| Null                   (* the key maps to JSON null *)
| Value (a : A).
Arguments Absent {A}.
Arguments Null {A}.
Arguments Value {A} a.

Record response (A : Type) : Type := mk_response {
  status_code : Z;
  json : json_field A
}.
Arguments mk_response {A}.
Arguments status_code {A}.
Arguments json {A}.

Inductive http_reply (A : Type) : Type :=
| Timeout
| ConnectionError
| Reply (r : response A).
Arguments Timeout {A}.
Arguments ConnectionError {A}.
Arguments Reply {A} r.

(** What the outside world answers during one tick: the three endpoints,
    [time.time()] and [time.time_ns()]. *)
Record world : Type := mk_world {
  getq : http_reply (list float);
  get_gripper : http_reply float;
  getpos_euler : http_reply (list float);
  time : float;
  time_ns : Z
}.

(** [requests.post]: both failure modes are RequestException subclasses. *)
Definition post {A : Type} (r : http_reply A) : result (response A) :=
  match r with
  | Timeout | ConnectionError => Raise RequestException
  | Reply resp => Ok resp
  end.

(** [resp.json()[key]]: a missing key raises KeyError, null reads as None. *)
Definition json_get {A : Type} (resp : response A) : result (option A) :=
  match json resp with
  | Absent => Raise KeyError
  | Null => Ok None
  | Value a => Ok (Some a)
  end.

(** [pose[i]] for a literal index [i >= 0]. *)
Definition subscript (pose : option (list float)) (i : nat) : result float :=
  match pose with
  | None => Raise TypeError
  | Some l => match nth_error l i with
              | Some x => Ok x
              | None => Raise IndexError
              end
  end.

(** ** The [arm_data] dictionary (main.py, lines 17-22)

    [gripper_raw] is a key the dictionary does not start with: the outer
    [None] is the key missing, [Some None] the key bound to None. *)

Inductive pynum : Type :=
| PyFloat (x : float)
| PyInt (n : Z).

Record arm_data : Type := mk_arm_data {
  jointstate : option (list float);
  gripper : option (list pynum);
  gripper_raw : option (option float);
  pose : option (list float);
  success : bool
}.

Definition arm_data_init : arm_data :=
  {| jointstate := None; gripper := None; gripper_raw := None;
     pose := None; success := false |}.

Definition set_jointstate (v : option (list float)) (d : arm_data) : arm_data :=
  {| jointstate := v; gripper := gripper d; gripper_raw := gripper_raw d;
     pose := pose d; success := success d |}.
Definition set_gripper (v : option (list pynum)) (d : arm_data) : arm_data :=
  {| jointstate := jointstate d; gripper := v; gripper_raw := gripper_raw d;
     pose := pose d; success := success d |}.
Definition set_gripper_raw (v : option float) (d : arm_data) : arm_data :=
  {| jointstate := jointstate d; gripper := gripper d; gripper_raw := Some v;
     pose := pose d; success := success d |}.
Definition set_pose (v : option (list float)) (d : arm_data) : arm_data :=
  {| jointstate := jointstate d; gripper := gripper d; gripper_raw := gripper_raw d;
     pose := v; success := success d |}.
Definition set_success (v : bool) (d : arm_data) : arm_data :=
  {| jointstate := jointstate d; gripper := gripper d; gripper_raw := gripper_raw d;
     pose := pose d; success := v |}.

(** [arm_data.get("gripper_raw")]: None for a missing key. *)
Definition get_gripper_raw (d : arm_data) : option float :=
  match gripper_raw d with
  | Some v => v
  | None => None
  end.

(** ** Statements that mutate [arm_data] and may raise

    A raised exception keeps the mutations made before it, which is what
    the [except] clause of [get_arm_data] returns. *)

Definition stmt (A : Type) : Type := arm_data -> arm_data * result A.

Definition ret {A : Type} (a : A) : stmt A := fun d => (d, Ok a).
Definition bind {A B : Type} (c : stmt A) (k : A -> stmt B) : stmt B :=
  fun d => match c d with
           | (d', Ok a) => k a d'
           | (d', Raise e) => (d', Raise e)
           end.
Definition lift {A : Type} (r : result A) : stmt A := fun d => (d, r).
Definition assign (f : arm_data -> arm_data) : stmt unit := fun d => (f d, Ok tt).
Definition read {A : Type} (f : arm_data -> A) : stmt A := fun d => (d, Ok (f d)).

Notation "x <- c ;; k" := (bind c (fun x => k))
  (at level 61, c at next level, right associativity).
Notation "c ;;; k" := (bind c (fun _ => k))
  (at level 61, right associativity).

(** Lines 25-43: the body of the [try]. *)
Definition get_arm_data_try (w : world) : stmt unit :=
  joint_resp <- lift (post (getq w)) ;;
  (if (status_code joint_resp =? 200)%Z then
     q <- lift (json_get joint_resp) ;; assign (set_jointstate q)
   else ret tt) ;;;
  gripper_resp <- lift (post (get_gripper w)) ;;
  (if (status_code gripper_resp =? 200)%Z then
     g <- lift (json_get gripper_resp) ;; assign (set_gripper_raw g)
   else ret tt) ;;;
  pose_resp <- lift (post (getpos_euler w)) ;;
  (if (status_code pose_resp =? 200)%Z then
     p <- lift (json_get pose_resp) ;;
     p0 <- lift (subscript p 0) ;;
     p1 <- lift (subscript p 1) ;;
     p2 <- lift (subscript p 2) ;;
     p3 <- lift (subscript p 3) ;;
     p4 <- lift (subscript p 4) ;;
     p5 <- lift (subscript p 5) ;;
     assign (set_pose (Some [p0; p1; p2; p3; p4; p5]))
   else ret tt) ;;;
  j <- read jointstate ;;
  g <- read get_gripper_raw ;;
  p <- read pose ;;
  if match j, g, p with Some _, Some _, Some _ => true | _, _, _ => false end
  then assign (set_success true)
  else ret tt.

(** Lines 15-48.  The [url] argument only selects the service; the
    service's answers are the [world].  The handler catches
    RequestException alone (and prints it); anything else propagates. *)
Definition get_arm_data (w : world) : result arm_data :=
  match get_arm_data_try w arm_data_init with
  | (d, Ok _) => Ok d
  | (d, Raise RequestException) => Ok d
  | (_, Raise e) => Raise e
  end.

(** ** The event loop (main.py, lines 53-115) *)

Inductive arrow_type : Type := float32.

(** One call of [node.send_output(id, pa.array(values, type), metadata)]. *)
Record output : Type := mk_output {
  output_id : string;
  values : list pynum;
  type : arrow_type;
  timestamp : Z
}.

(** An event of the node: [event["type"]], [event["id"]], and what the
    world would answer if the event is handled as a tick. *)
Record event : Type := mk_event {
  ev_type : string;
  ev_id : string;
  ev_world : world
}.

Record node_state : Type := mk_node_state {
  grasp : grasp_state;
  sent : list output          (* oldest first *)
}.

Definition initial_node_state : node_state :=
  {| grasp := initial_grasp_state; sent := [] |}.

(** Lines 71-110: the body guarded by [arm_data["success"]]. *)
Definition publish (w : world) (d : arm_data) (n : node_state) : result node_state :=
  match gripper_raw d with
  | None => Raise KeyError
  | Some None => Raise TypeError
  | Some (Some cur_gripper) =>
      let current_time := time w in
      match update (grasp n) cur_gripper current_time with
      | Raise e => Raise e
      | Ok s' =>
          let d' := set_gripper
                      (Some [PyFloat cur_gripper; PyInt (stable_flag s')]) d in
          match jointstate d', gripper d', pose d' with
          | Some q, Some g, Some p =>
              let combined_list := map PyFloat q ++ g ++ map PyFloat p in
              Ok {| grasp := s';
                    sent := sent n ++ [ {| output_id := "jointstate";
                                           values := combined_list;
                                           type := float32;
                                           timestamp := time_ns w |} ] |}
          | _, _, _ => Raise TypeError
          end
      end
  end.

(** Lines 68-113: one iteration of [for event in node]. *)
Definition handle_event (e : event) (n : node_state) : result node_state :=
  if (ev_type e =? "INPUT")%string && (ev_id e =? "tick")%string then
    match get_arm_data (ev_world e) with
    | Raise x => Raise x
    | Ok d => if success d then publish (ev_world e) d n else Ok n
    end
  else if (ev_type e =? "INPUT")%string && (ev_id e =? "stop")%string then
    Ok n      (* prints a message, nothing else *)
  else Ok n.

(** Lines 67-115: the loop over the events the node delivers.  An uncaught
    exception ends the process; the state returned with it is the one
    before the failing event, whose outputs had all been sent. *)
Fixpoint main_loop (events : list event) (n : node_state)
  : node_state * option exn :=
  match events with
  | [] => (n, None)
  | e :: rest =>
      match handle_event e n with
      | Ok n' => main_loop rest n'
      | Raise x => (n, Some x)
      end
  end.

Definition main (events : list event) : node_state * option exn :=
  main_loop events initial_node_state.

(** Successive updates of the tracking state, one per sample
    [(distance, time)], as the loop performs them on successive
    successful ticks; the result lists the state after each sample. *)
Fixpoint feed (s : grasp_state) (samples : list (float * float))
  : result (list grasp_state) :=
  match samples with
  | [] => Ok []
  | (d, t) :: rest =>
      match update s d t with
      | Raise e => Raise e
      | Ok s' =>
          match feed s' rest with
          | Raise e => Raise e
          | Ok l => Ok (s' :: l)
          end
      end
  end.

(** The invariants of the tracking state. *)
Record grasp_invariant (s : grasp_state) : Prop := mk_grasp_invariant {
  enter_time_iff_in_range : enter_time s <> None <-> in_range s = true;
  stable_implies_in_range : is_stable_grasp s = true -> in_range s = true
}.

(** The two states [update] writes as a whole: after an out-of-band
    sample (lines 92-94) and after a fresh entry (lines 82-84). *)
Definition reset_state : grasp_state :=
  {| in_range := false; enter_time := None; is_stable_grasp := false |}.

Definition entered_at (t : float) : grasp_state :=
  {| in_range := true; enter_time := Some t; is_stable_grasp := false |}.

(** ** Events and worlds used in examples *)

Definition reply_ok {A : Type} (a : A) : http_reply A :=
  Reply {| status_code := 200; json := Value a |}.

Definition tick (w : world) : event :=
  {| ev_type := "INPUT"; ev_id := "tick"; ev_world := w |}.

Definition stop (w : world) : event :=
  {| ev_type := "INPUT"; ev_id := "stop"; ev_world := w |}.

(** A service that answers all three calls: seven joint angles, the
    gripper at distance [g], a fixed pose; the clocks read [t] and [ns]. *)
Definition sample_joints : list float := [0; 0.1; 0.2; 0.3; 0.4; 0.5; 0.6].
Definition sample_pose : list float := [0.3; 0; 0.5; 3.14; 0; 0].

Definition sample_world (g t : float) (ns : Z) : world :=
  {| getq := reply_ok sample_joints;
     get_gripper := reply_ok g;
     getpos_euler := reply_ok sample_pose;
     time := t;
     time_ns := ns |}.

(** The same service with the gripper call timing out, and with the
    joint answer arriving with status 200 but without its ["q"] field. *)
Definition timeout_world (t : float) (ns : Z) : world :=
  {| getq := reply_ok sample_joints;
     get_gripper := Timeout;
     getpos_euler := reply_ok sample_pose;
     time := t;
     time_ns := ns |}.

Definition missing_field_world (t : float) (ns : Z) : world :=
  {| getq := Reply {| status_code := 200; json := Absent |};
     get_gripper := reply_ok 0.5;
     getpos_euler := reply_ok sample_pose;
     time := t;
     time_ns := ns |}.

(** ** Kinds of answers

    [request_failed]: the call timed out, could not connect, or came back
    with a status other than 200.  [lacks_field]: the call came back with
    status 200 and a body the code cannot read: the field is missing, or
    (through [unreadable]) its value cannot be subscripted as the code
    does. *)
Definition request_failed {A : Type} (r : http_reply A) : bool :=
  match r with
  | Timeout | ConnectionError => true
  | Reply resp => negb (status_code resp =? 200)%Z
  end.

Definition lacks_field {A : Type} (unreadable : option A -> bool)
           (r : http_reply A) : bool :=
  match r with
  | Timeout | ConnectionError => false
  | Reply resp =>
      (status_code resp =? 200)%Z &&
      match json resp with
      | Absent => true
      | Null => unreadable None
      | Value a => unreadable (Some a)
      end
  end.

Definition always_readable {A : Type} (_ : option A) : bool := false.

(** The pose is read at the indices 0 to 5. *)
Definition pose_unreadable (p : option (list float)) : bool :=
  match p with
  | Some (_ :: _ :: _ :: _ :: _ :: _ :: _) => false
  | _ => true
  end.

(** The stable flags carried by a list of outputs: the element after the
    gripper distance, that is the second of the two elements that follow
    the [joints] joint angles. *)
Definition flag_of (joints : nat) (o : output) : option pynum :=
  nth_error (values o) (joints + 1).

(** ** Reading the loop's events and outputs *)

(** The test of line 68. *)
Definition is_tick (e : event) : bool :=
  (ev_type e =? "INPUT")%string && (ev_id e =? "tick")%string.

(** The reading a tick obtains when its fetch returns one marked
    successful: the ticks on which lines 72-110 run. *)
Definition reading_of (e : event) : option arm_data :=
  if is_tick e then
    match get_arm_data (ev_world e) with
    | Ok d => if success d then Some d else None
    | Raise _ => None
    end
  else None.

Definition publishes (e : event) : bool :=
  match reading_of e with Some _ => true | None => false end.

(** The sample such a tick hands to the tracker: [cur_gripper] and
    [current_time] of lines 72-73. *)
Definition sample_of (e : event) : option (float * float) :=
  match reading_of e with
  | Some d => match gripper_raw d with
              | Some (Some g) => Some (g, time (ev_world e))
              | _ => None
              end
  | None => None
  end.

Fixpoint samples_of (events : list event) : list (float * float) :=
  match events with
  | [] => []
  | e :: rest => match sample_of e with
                 | Some x => x :: samples_of rest
                 | None => samples_of rest
                 end
  end.

(** What a consumer reads back from an output vector: the pose is its
    last six elements and the gripper pair the two before them. *)
Definition gripper_of (o : output) : option (pynum * pynum) :=
  let k := (List.length (values o) - 8)%nat in
  match nth_error (values o) k, nth_error (values o) (S k) with
  | Some g, Some f => Some (g, f)
  | _, _ => None
  end.

(** The pair line 97 builds from a sample and the state after it. *)
Definition gripper_pair (x : (float * float) * grasp_state) : option (pynum * pynum) :=
  Some (PyFloat (fst (fst x)), PyInt (stable_flag (snd x))).


(** * Properties *)

(** ** Comparison of binary64 values *)

Lemma SFcompare_antisym (x y : spec_float) :
  SFcompare y x = option_map CompOpp (SFcompare x y).
Proof.
  destruct x as [sx|sx| |sx mx ex], y as [sy|sy| |sy my ey]; simpl;
    try reflexivity;
    try (destruct sx; reflexivity);
    try (destruct sy; reflexivity);
    try (destruct sx, sy; reflexivity).
  destruct sx, sy; simpl; try reflexivity;
    rewrite (Z.compare_antisym ex ey);
    destruct (ex ?= ey)%Z; simpl; try reflexivity;
    change (Pos.compare_cont Eq my mx) with (my ?= mx)%positive;
    change (Pos.compare_cont Eq mx my) with (mx ?= my)%positive;
    rewrite (Pos.compare_antisym mx my);
    destruct (mx ?= my)%positive; reflexivity.
Qed.

(** [x <= y] excludes [y < x]: the two Python comparisons cannot both hold. *)
Lemma leb_not_ltb (x y : float) : (x <=? y) = true -> (y <? x) = false.
Proof.
  rewrite leb_spec, ltb_spec. unfold SFleb, SFltb.
  rewrite (SFcompare_antisym (Prim2SF x) (Prim2SF y)).
  destruct (SFcompare (Prim2SF x) (Prim2SF y)) as [[ | | ]|]; simpl;
    intros H; try reflexivity; discriminate H.
Qed.

Lemma out_of_band (d : float) :
  (d <=? min_gripper_distance) = true \/ (max_gripper_catch_distance <=? d) = true ->
  cur_in_range d = false.
Proof.
  unfold cur_in_range. intros [H | H]; apply leb_not_ltb in H; rewrite H.
  - reflexivity.
  - apply andb_false_r.
Qed.

(** ** The three branches of [update] *)

Lemma update_out (s : grasp_state) (d t : float) :
  cur_in_range d = false -> update s d t = Ok reset_state.
Proof. intros H. unfold update. rewrite H. reflexivity. Qed.

Lemma update_enter (s : grasp_state) (d t : float) :
  cur_in_range d = true -> in_range s = false ->
  update s d t = Ok (entered_at t).
Proof. intros H Hs. unfold update. rewrite H, Hs. reflexivity. Qed.

Lemma update_stay (s : grasp_state) (d t t0 : float) :
  cur_in_range d = true -> in_range s = true -> enter_time s = Some t0 ->
  update s d t =
    Ok {| in_range := true;
          enter_time := Some t0;
          is_stable_grasp :=
            is_stable_grasp s || (GRASP_STABLE_DURATION <=? t - t0) |}.
Proof.
  intros H Hs Ht. unfold update. rewrite H, Hs, Ht. simpl.
  destruct (GRASP_STABLE_DURATION <=? t - t0).
  - rewrite orb_true_r. reflexivity.
  - rewrite orb_false_r. destruct s as [r e b]; simpl in *. subst. reflexivity.
Qed.

(** [update] cannot raise on a state that satisfies the invariants. *)
Lemma update_total (s : grasp_state) (d t : float) :
  grasp_invariant s -> exists s', update s d t = Ok s' /\ grasp_invariant s'.
Proof.
  intros [Hiff Hst].
  destruct (cur_in_range d) eqn:Hd.
  - destruct (in_range s) eqn:Hr.
    + destruct (enter_time s) as [t0|] eqn:He.
      * eexists. split; [apply (update_stay s d t t0 Hd Hr He)|].
        split; simpl; [split; [reflexivity | discriminate] | reflexivity].
      * exfalso. apply Hiff; reflexivity.
    + eexists. split; [apply (update_enter s d t Hd Hr)|].
      split; simpl; [split; [reflexivity | discriminate] | reflexivity].
  - eexists. split; [apply (update_out s d t Hd)|].
    split; simpl; [split; [intros H; now elim H | discriminate] | discriminate].
Qed.

Lemma initial_invariant : grasp_invariant initial_grasp_state.
Proof.
  split; simpl; [split; [intros H; now elim H | discriminate] | discriminate].
Qed.

(** ** What [get_arm_data] returns *)

Ltac run_stmt :=
  unfold get_arm_data, get_arm_data_try, bind, lift, assign, read, ret, post,
    json_get, subscript, get_gripper_raw; simpl.

(** A reading marked successful comes from three answers with status 200
    that all carry their field, the pose with at least six coordinates;
    the dictionary then holds exactly these values. *)
Lemma get_arm_data_success (w : world) (d : arm_data) :
  get_arm_data w = Ok d -> success d = true ->
  exists q g p0 p1 p2 p3 p4 p5 rest,
    getq w = reply_ok q /\
    get_gripper w = reply_ok g /\
    getpos_euler w = reply_ok (p0 :: p1 :: p2 :: p3 :: p4 :: p5 :: rest) /\
    d = {| jointstate := Some q; gripper := None;
           gripper_raw := Some (Some g);
           pose := Some [p0; p1; p2; p3; p4; p5]; success := true |}.
Proof.
  destruct w as [rq rg rp t ns]. run_stmt.
  destruct rq as [| |[sq [| |q]]]; simpl;
    try (intros H; inversion H; subst; simpl; discriminate);
    (destruct (Z.eqb_spec sq 200) as [->|_]; simpl;
     try (intros H; inversion H; subst; simpl; discriminate));
    (destruct rg as [| |[sg [| |g]]]; simpl;
     try (intros H; inversion H; subst; simpl; discriminate));
    (destruct (Z.eqb_spec sg 200) as [->|_]; simpl;
     try (intros H; inversion H; subst; simpl; discriminate));
    (destruct rp as [| |[sp [| |p]]]; simpl;
     try (intros H; inversion H; subst; simpl; discriminate));
    (destruct (Z.eqb_spec sp 200) as [->|_]; simpl;
     try (intros H; inversion H; subst; simpl; discriminate)).
  all: try (destruct p as [|p0 [|p1 [|p2 [|p3 [|p4 [|p5 rest]]]]]]; simpl;
     try (intros H; inversion H; subst; simpl; discriminate)).
  intros H _. inversion H; subst.
  exists q, g, p0, p1, p2, p3, p4, p5, rest. repeat split; reflexivity.
Qed.

Lemma get_arm_data_ok (w : world) (q : list float) (g p0 p1 p2 p3 p4 p5 : float)
      (rest : list float) :
  getq w = reply_ok q ->
  get_gripper w = reply_ok g ->
  getpos_euler w = reply_ok (p0 :: p1 :: p2 :: p3 :: p4 :: p5 :: rest) ->
  get_arm_data w =
    Ok {| jointstate := Some q; gripper := None;
          gripper_raw := Some (Some g);
          pose := Some [p0; p1; p2; p3; p4; p5]; success := true |}.
Proof.
  destruct w as [rq rg rp t ns]. simpl. intros -> -> ->. reflexivity.
Qed.

(** ** One iteration of the loop *)

Lemma handle_tick (w : world) (n : node_state) :
  handle_event (tick w) n =
    match get_arm_data w with
    | Raise x => Raise x
    | Ok d => if success d then publish w d n else Ok n
    end.
Proof. reflexivity. Qed.

Lemma main_loop_app (pre post : list event) (n : node_state) :
  main_loop (pre ++ post) n =
    match main_loop pre n with
    | (n', None) => main_loop post n'
    | (n', Some x) => (n', Some x)
    end.
Proof.
  revert n. induction pre as [|e pre IH]; intros n; simpl.
  - reflexivity.
  - destruct (handle_event e n) as [n'|x]; [apply IH | reflexivity].
Qed.

(** Publishing a successful reading from a state that satisfies the
    invariants sends one output and moves the tracker by one [update]. *)
Lemma publish_ok (w : world) (n : node_state) (q : list float)
      (g p0 p1 p2 p3 p4 p5 : float) :
  grasp_invariant (grasp n) ->
  exists s',
    update (grasp n) g (time w) = Ok s' /\
    grasp_invariant s' /\
    publish w (mk_arm_data (Some q) None (Some (Some g))
                           (Some [p0; p1; p2; p3; p4; p5]) true) n =
      Ok {| grasp := s';
            sent := sent n ++
              [ {| output_id := "jointstate";
                   values := map PyFloat q
                             ++ [PyFloat g; PyInt (stable_flag s')]
                             ++ map PyFloat [p0; p1; p2; p3; p4; p5];
                   type := float32;
                   timestamp := time_ns w |} ] |}.
Proof.
  intros Hinv.
  destruct (update_total (grasp n) g (time w) Hinv) as [s' [Hu Hi]].
  exists s'. repeat split; try assumption; try apply Hi.
  unfold publish. simpl. rewrite Hu. reflexivity.
Qed.

(** Every handled event keeps the invariants of the tracking state. *)
Lemma handle_event_invariant (e : event) (n n' : node_state) :
  grasp_invariant (grasp n) -> handle_event e n = Ok n' ->
  grasp_invariant (grasp n').
Proof.
  intros Hinv. unfold handle_event.
  destruct ((ev_type e =? "INPUT")%string && (ev_id e =? "tick")%string).
  - destruct (get_arm_data (ev_world e)) as [d|x] eqn:Hd; [|discriminate].
    destruct (success d) eqn:Hs.
    + destruct (get_arm_data_success _ _ Hd Hs)
        as (q & g & p0 & p1 & p2 & p3 & p4 & p5 & rest & _ & _ & _ & ->).
      destruct (publish_ok (ev_world e) n q g p0 p1 p2 p3 p4 p5 Hinv)
        as (s' & _ & Hi & ->).
      intros H. inversion H; subst. exact Hi.
    + intros H. inversion H; subst. exact Hinv.
  - destruct ((ev_type e =? "INPUT")%string && (ev_id e =? "stop")%string);
      intros H; inversion H; subst; exact Hinv.
Qed.

Lemma main_loop_invariant (events : list event) (n : node_state) :
  grasp_invariant (grasp n) ->
  grasp_invariant (grasp (fst (main_loop events n))).
Proof.
  revert n. induction events as [|e rest IH]; intros n Hinv; simpl.
  - exact Hinv.
  - destruct (handle_event e n) as [n'|x] eqn:He.
    + apply IH. exact (handle_event_invariant e n n' Hinv He).
    + exact Hinv.
Qed.

(** * The claims *)

(** ** The tracker *)

(** C1: within one contiguous in-range run (the state is in range with
    entry time [t0], and every sample of the run is inside the band),
    every update succeeds, stays in range and keeps [t0]; it leaves
    [is_stable_grasp] as it was or sets it to true, the latter exactly
    when [now - t0 >= GRASP_STABLE_DURATION], so the flag is never set
    back to false during the run; and after tick [k] the flag is true
    exactly when it was true at the start of the run or some tick
    [j <= k] of the run had [t_j - t0 >= GRASP_STABLE_DURATION]: it
    becomes 1 at the first such tick and remains 1 afterwards. *)
Theorem stable_within_run (s : grasp_state) (t0 : float)
        (samples : list (float * float)) :
  in_range s = true ->
  enter_time s = Some t0 ->
  Forall (fun x => cur_in_range (fst x) = true) samples ->
  exists states,
    feed s samples = Ok states /\
    List.length states = List.length samples /\
    forall k prev d now,
      nth_error (s :: states) k = Some prev ->
      nth_error samples k = Some (d, now) ->
      exists next,
        nth_error states k = Some next /\
        update prev d now = Ok next /\
        in_range next = true /\
        enter_time next = Some t0 /\
        is_stable_grasp next =
          is_stable_grasp prev || (GRASP_STABLE_DURATION <=? now - t0) /\
        (is_stable_grasp next = true <->
           is_stable_grasp s = true \/
           exists j dj tj,
             (j <= k)%nat /\ nth_error samples j = Some (dj, tj) /\
             (GRASP_STABLE_DURATION <=? tj - t0) = true).
Proof.
  revert s. induction samples as [|[d0 t1] rest IH]; intros s Hr He Hall.
  - exists []. repeat split; try reflexivity.
    intros k prev d now _ H. destruct k; discriminate H.
  - inversion Hall as [|x l Hd0 Hrest]; subst. simpl in Hd0.
    pose proof (update_stay s d0 t1 t0 Hd0 Hr He) as Hu.
    set (s1 := {| in_range := true; enter_time := Some t0;
                  is_stable_grasp :=
                    is_stable_grasp s || (GRASP_STABLE_DURATION <=? t1 - t0) |})
      in Hu.
    destruct (IH s1 eq_refl eq_refl Hrest) as (states & Hf & Hlen & Hk).
    exists (s1 :: states). simpl. rewrite Hu, Hf. simpl.
    split; [reflexivity|]. split; [now rewrite Hlen|].
    intros [|k] prev d now Hprev Hsample; simpl in Hprev, Hsample.
    + inversion Hprev; inversion Hsample; subst. exists s1.
      repeat split; try reflexivity; try assumption.
      * simpl. intros H. apply orb_true_iff in H. destruct H as [H|H].
        -- left. exact H.
        -- right. exists 0%nat, d, now. repeat split; auto.
      * simpl. intros [H|(j & dj & tj & Hj & Hn & Hc)].
        -- rewrite H. reflexivity.
        -- assert (j = 0)%nat by lia. subst j. simpl in Hn.
           inversion Hn; subst. rewrite Hc. apply orb_true_r.
    + destruct (Hk k prev d now Hprev Hsample)
        as (next & Hn & Hun & Hrn & Hen & Hstep & Hiff).
      exists next. repeat split; try assumption.
      * intros H. apply Hiff in H. destruct H as [H|(j & dj & tj & Hj & Hnj & Hc)].
        -- simpl in H. apply orb_true_iff in H. destruct H as [H|H].
           ++ left. exact H.
           ++ right. exists 0%nat, d0, t1. repeat split; auto. lia.
        -- right. exists (S j), dj, tj. repeat split; auto. lia.
      * intros H. apply Hiff. destruct H as [H|(j & dj & tj & Hj & Hnj & Hc)].
        -- left. simpl. rewrite H. reflexivity.
        -- destruct j as [|j]; simpl in Hnj.
           ++ inversion Hnj; subst. left. simpl. rewrite Hc. apply orb_true_r.
           ++ right. exists j, dj, tj. repeat split; auto. lia.
Qed.

Lemma stable_within_run_witness :
  in_range (entered_at 0) = true /\
  enter_time (entered_at 0) = Some 0 /\
  Forall (fun x => cur_in_range (fst x) = true)
         [(0.5, 0.3); (0.5, 0.9); (0.5, 1.5)] /\
  exists states,
    feed (entered_at 0) [(0.5, 0.3); (0.5, 0.9); (0.5, 1.5)] = Ok states /\
    List.length states = 3%nat /\
    forall k prev d now,
      nth_error (entered_at 0 :: states) k = Some prev ->
      nth_error [(0.5, 0.3); (0.5, 0.9); (0.5, 1.5)] k = Some (d, now) ->
      exists next,
        nth_error states k = Some next /\
        update prev d now = Ok next /\
        in_range next = true /\
        enter_time next = Some 0 /\
        is_stable_grasp next =
          is_stable_grasp prev || (GRASP_STABLE_DURATION <=? now - 0) /\
        (is_stable_grasp next = true <->
           is_stable_grasp (entered_at 0) = true \/
           exists j dj tj,
             (j <= k)%nat /\
             nth_error [(0.5, 0.3); (0.5, 0.9); (0.5, 1.5)] j = Some (dj, tj) /\
             (GRASP_STABLE_DURATION <=? tj - 0) = true).
Proof.
  split; [reflexivity|]. split; [reflexivity|].
  split; [repeat constructor|].
  apply (stable_within_run (entered_at 0) 0
                           [(0.5, 0.3); (0.5, 0.9); (0.5, 1.5)]);
    [reflexivity | reflexivity | repeat constructor].
Defined.

(** C2: a distance with [d <= min_gripper_distance] (0.02) or
    [d >= max_gripper_catch_distance] (0.7), equality included, is
    classified out of range, and the update resets the state whatever it
    was: [in_range] false, [enter_time] None, [is_stable_grasp] false,
    stable flag 0. *)
Theorem out_of_band_resets (s : grasp_state) (d now : float) :
  (d <=? min_gripper_distance) = true \/
  (max_gripper_catch_distance <=? d) = true ->
  cur_in_range d = false /\
  exists s',
    update s d now = Ok s' /\
    in_range s' = false /\
    enter_time s' = None /\
    is_stable_grasp s' = false /\
    stable_flag s' = 0%Z.
Proof.
  intros H. pose proof (out_of_band d H) as Hd.
  split; [exact Hd|].
  exists reset_state. rewrite (update_out s d now Hd).
  repeat split; reflexivity.
Qed.

(** The two boundaries themselves, met by a state that was stable. *)
Lemma out_of_band_resets_witness :
  ((0.02 <=? min_gripper_distance) = true \/
   (max_gripper_catch_distance <=? 0.02) = true) /\
  ((0.7 <=? min_gripper_distance) = true \/
   (max_gripper_catch_distance <=? 0.7) = true) /\
  (cur_in_range 0.02 = false /\
   exists s',
     update (mk_grasp_state true (Some 1) true) 0.02 3 = Ok s' /\
     in_range s' = false /\ enter_time s' = None /\
     is_stable_grasp s' = false /\ stable_flag s' = 0%Z) /\
  (cur_in_range 0.7 = false /\
   exists s',
     update (mk_grasp_state true (Some 1) true) 0.7 3 = Ok s' /\
     in_range s' = false /\ enter_time s' = None /\
     is_stable_grasp s' = false /\ stable_flag s' = 0%Z).
Proof.
  split; [left; reflexivity|]. split; [right; reflexivity|]. split.
  - apply (out_of_band_resets (mk_grasp_state true (Some 1) true) 0.02 3).
    left; reflexivity.
  - apply (out_of_band_resets (mk_grasp_state true (Some 1) true) 0.7 3).
    right; reflexivity.
Defined.

(** C3: an update with the distance inside the band on a state that is
    not in range records [enter_time = now], sets [in_range], forces
    [is_stable_grasp] to false, and the flag of that tick is 0.  This is
    so after any history: whatever the state was (stable included), one
    out-of-band sample followed by an in-band sample at [now] gives the
    same fresh state; and on the next in-band tick at [now'] stability
    is decided by [now' - now] alone. *)
Theorem fresh_entry_restarts (s : grasp_state) (d now : float) :
  cur_in_range d = true ->
  in_range s = false ->
  (exists s',
     update s d now = Ok s' /\
     in_range s' = true /\
     enter_time s' = Some now /\
     is_stable_grasp s' = false /\
     stable_flag s' = 0%Z /\
     forall d' now',
       cur_in_range d' = true ->
       exists s'',
         update s' d' now' = Ok s'' /\
         enter_time s'' = Some now /\
         is_stable_grasp s'' = (GRASP_STABLE_DURATION <=? now' - now)) /\
  (forall s0 d_out t_out,
     cur_in_range d_out = false ->
     exists s1,
       update s0 d_out t_out = Ok s1 /\
       update s1 d now = Ok (entered_at now)).
Proof.
  intros Hd Hs. split.
  - exists (entered_at now). rewrite (update_enter s d now Hd Hs).
    repeat split; try reflexivity.
    intros d' now' Hd'. eexists.
    split; [apply (update_stay (entered_at now) d' now' now Hd'); reflexivity|].
    split; reflexivity.
  - intros s0 d_out t_out Hout. exists reset_state.
    split; [apply update_out; exact Hout|].
    apply update_enter; [exact Hd | reflexivity].
Qed.

Lemma fresh_entry_restarts_witness :
  cur_in_range 0.5 = true /\
  in_range reset_state = false /\
  (exists s',
     update reset_state 0.5 10 = Ok s' /\
     in_range s' = true /\
     enter_time s' = Some 10 /\
     is_stable_grasp s' = false /\
     stable_flag s' = 0%Z /\
     forall d' now',
       cur_in_range d' = true ->
       exists s'',
         update s' d' now' = Ok s'' /\
         enter_time s'' = Some 10 /\
         is_stable_grasp s'' = (GRASP_STABLE_DURATION <=? now' - 10)) /\
  (forall s0 d_out t_out,
     cur_in_range d_out = false ->
     exists s1,
       update s0 d_out t_out = Ok s1 /\
       update s1 0.5 10 = Ok (entered_at 10)).
Proof.
  split; [reflexivity|]. split; [reflexivity|].
  apply (fresh_entry_restarts reset_state 0.5 10); reflexivity.
Defined.

(** C4: the invariants ([enter_time] is not None exactly when [in_range]
    is true; [is_stable_grasp] implies [in_range]) hold in the initial
    state, every update of a state that satisfies them succeeds and gives
    a state that satisfies them, and so does every state the loop reaches. *)
Theorem invariants_preserved :
  grasp_invariant initial_grasp_state /\
  (forall s d now,
     grasp_invariant s ->
     exists s', update s d now = Ok s' /\ grasp_invariant s') /\
  (forall events, grasp_invariant (grasp (fst (main events)))).
Proof.
  split; [exact initial_invariant|]. split.
  - intros s d now H. exact (update_total s d now H).
  - intros events. apply main_loop_invariant. exact initial_invariant.
Qed.

Lemma invariants_preserved_witness :
  grasp_invariant (entered_at 0) /\
  exists s', update (entered_at 0) 0.5 0.9 = Ok s' /\ grasp_invariant s'.
Proof.
  assert (H : grasp_invariant (entered_at 0)).
  { split; simpl; [split; [reflexivity | discriminate] | discriminate]. }
  split; [exact H|].
  exact (proj1 (proj2 invariants_preserved) (entered_at 0) 0.5 0.9 H).
Defined.

(** C6: with band (0.02, 0.7) and stable duration 0.8, from the initial
    state, the distance 0.5 at times 0, 0.3, 0.9, 1.5 gives the stable
    flags 0, 0, 1, 1: both as successive updates and as the flags of the
    four outputs the loop sends for four such ticks. *)
Theorem scenario_flags :
  min_gripper_distance = 0.02 /\
  max_gripper_catch_distance = 0.7 /\
  GRASP_STABLE_DURATION = 0.8 /\
  (exists states,
     feed initial_grasp_state [(0.5, 0); (0.5, 0.3); (0.5, 0.9); (0.5, 1.5)]
       = Ok states /\
     map stable_flag states = [0; 0; 1; 1]%Z) /\
  (exists n,
     main [tick (sample_world 0.5 0 0);
           tick (sample_world 0.5 0.3 300000000);
           tick (sample_world 0.5 0.9 900000000);
           tick (sample_world 0.5 1.5 1500000000)] = (n, None) /\
     map (flag_of 7) (sent n)
       = [Some (PyInt 0); Some (PyInt 0); Some (PyInt 1); Some (PyInt 1)]).
Proof.
  repeat split; try reflexivity.
  - eexists. split; vm_compute; reflexivity.
  - eexists. split; vm_compute; reflexivity.
Qed.

(** ** The loop *)

(** C5: a tick whose fetch returns with [success] false sends nothing and
    leaves the tracking state as it was, so the loop runs on as if the
    event had not been there: with or without the failed tick in the
    sequence, every later tick sees the same state, the original
    [enter_time] included, and the outputs are the same. *)
Theorem failed_tick_skipped (w : world) (d : arm_data) :
  get_arm_data w = Ok d ->
  success d = false ->
  (forall n, handle_event (tick w) n = Ok n) /\
  (forall pre post n,
     main_loop (pre ++ tick w :: post) n = main_loop (pre ++ post) n).
Proof.
  intros Hd Hs.
  assert (H : forall n, handle_event (tick w) n = Ok n).
  { intros n. rewrite handle_tick, Hd, Hs. reflexivity. }
  split; [exact H|].
  intros pre post n. rewrite !main_loop_app.
  destruct (main_loop pre n) as [n' [x|]]; [reflexivity|].
  simpl. rewrite H. reflexivity.
Qed.

Lemma failed_tick_skipped_witness :
  get_arm_data (timeout_world 0.3 300000000)
    = Ok (mk_arm_data (Some sample_joints) None None None false) /\
  success (mk_arm_data (Some sample_joints) None None None false) = false /\
  (forall n, handle_event (tick (timeout_world 0.3 300000000)) n = Ok n) /\
  (forall pre post n,
     main_loop (pre ++ tick (timeout_world 0.3 300000000) :: post) n
       = main_loop (pre ++ post) n).
Proof.
  split; [reflexivity|]. split; [reflexivity|].
  apply (failed_tick_skipped (timeout_world 0.3 300000000)
           (mk_arm_data (Some sample_joints) None None None false));
    reflexivity.
Defined.

(** C7, at the input where the code departs from it: the joint answer has
    status 200 and no ["q"] field.  The subscript raises KeyError, which
    the handler for RequestException does not catch; [get_arm_data]
    returns no reading and the loop ends with the exception, the later
    tick unhandled. *)
Theorem missing_field_propagates :
  get_arm_data (missing_field_world 0 0) = Raise KeyError /\
  main [tick (missing_field_world 0 0); tick (sample_world 0.5 1 1000000000)]
    = (initial_node_state, Some KeyError).
Proof. split; reflexivity. Qed.

(** C8, at the input where the code departs from it: the branch for the
    stop input only prints, so the loop goes on to the next event; a
    tick that follows the stop is handled and its output sent. *)
Theorem stop_does_not_end_loop :
  (forall w rest n, main_loop (stop w :: rest) n = main_loop rest n) /\
  exists n,
    main [stop (sample_world 0.5 0 0); tick (sample_world 0.5 1 1000000000)]
      = (n, None) /\
    List.length (sent n) = 1%nat.
Proof.
  split; [reflexivity|].
  eexists. split; vm_compute; reflexivity.
Qed.

(** C9: when the loop has run without exception and the next tick's fetch
    returns a reading with [success] true, handling the tick appends
    exactly one output to those sent: on channel "jointstate", the joint
    angles, then the gripper distance and the stable flag of the updated
    tracking state, then the six pose coordinates, as a float32 array of
    length joints + 2 + 6, with [time.time_ns()] as its timestamp. *)
Theorem successful_tick_output (pre : list event) (n : node_state)
        (w : world) (d : arm_data) :
  main pre = (n, None) ->
  get_arm_data w = Ok d ->
  success d = true ->
  exists q g p0 p1 p2 p3 p4 p5 s' o,
    jointstate d = Some q /\
    gripper_raw d = Some (Some g) /\
    pose d = Some [p0; p1; p2; p3; p4; p5] /\
    update (grasp n) g (time w) = Ok s' /\
    o = {| output_id := "jointstate";
           values := map PyFloat q
                     ++ [PyFloat g; PyInt (stable_flag s')]
                     ++ map PyFloat [p0; p1; p2; p3; p4; p5];
           type := float32;
           timestamp := time_ns w |} /\
    List.length (values o) = (List.length q + 2 + 6)%nat /\
    main (pre ++ [tick w]) = ({| grasp := s'; sent := sent n ++ [o] |}, None).
Proof.
  intros Hpre Hd Hs.
  destruct (get_arm_data_success w d Hd Hs)
    as (q & g & p0 & p1 & p2 & p3 & p4 & p5 & rest & _ & _ & _ & ->).
  assert (Hinv : grasp_invariant (grasp n)).
  { pose proof (main_loop_invariant pre initial_node_state initial_invariant) as H.
    unfold main in Hpre. rewrite Hpre in H. exact H. }
  destruct (publish_ok w n q g p0 p1 p2 p3 p4 p5 Hinv) as (s' & Hu & _ & Hp).
  exists q, g, p0, p1, p2, p3, p4, p5, s'. eexists.
  repeat split; try reflexivity; try exact Hu.
  - simpl. rewrite length_app, length_map. simpl. lia.
  - unfold main in *. rewrite main_loop_app, Hpre. simpl.
    rewrite handle_tick, Hd. simpl. rewrite Hp. reflexivity.
Qed.

Lemma successful_tick_output_witness :
  main [] = (initial_node_state, None) /\
  get_arm_data (sample_world 0.5 0 42)
    = Ok (mk_arm_data (Some sample_joints) None (Some (Some 0.5))
                      (Some sample_pose) true) /\
  exists q g p0 p1 p2 p3 p4 p5 s' o,
    Some sample_joints = Some q /\
    Some (Some 0.5) = Some (Some g) /\
    Some sample_pose = Some [p0; p1; p2; p3; p4; p5] /\
    update initial_grasp_state g 0 = Ok s' /\
    o = {| output_id := "jointstate";
           values := map PyFloat q
                     ++ [PyFloat g; PyInt (stable_flag s')]
                     ++ map PyFloat [p0; p1; p2; p3; p4; p5];
           type := float32;
           timestamp := 42 |} /\
    List.length (values o) = (List.length q + 2 + 6)%nat /\
    main ([] ++ [tick (sample_world 0.5 0 42)])
      = ({| grasp := s'; sent := [] ++ [o] |}, None).
Proof.
  split; [reflexivity|]. split; [reflexivity|].
  apply (successful_tick_output [] initial_node_state (sample_world 0.5 0 42)
           (mk_arm_data (Some sample_joints) None (Some (Some 0.5))
                        (Some sample_pose) true));
    reflexivity.
Defined.

(** C10: a reading that [get_arm_data] returns with [success] true has
    its joint angles, its raw gripper distance and its pose all present,
    the pose with six elements; and the body of the loop that consumes
    it (the tracker update and the concatenation) then raises nothing,
    in whatever state the loop has reached. *)
Theorem success_fields_present (w : world) (d : arm_data) :
  get_arm_data w = Ok d ->
  success d = true ->
  (exists q g p,
     jointstate d = Some q /\
     gripper_raw d = Some (Some g) /\
     pose d = Some p /\
     List.length p = 6%nat) /\
  (forall pre n, main pre = (n, None) -> exists n', publish w d n = Ok n').
Proof.
  intros Hd Hs.
  destruct (get_arm_data_success w d Hd Hs)
    as (q & g & p0 & p1 & p2 & p3 & p4 & p5 & rest & _ & _ & _ & ->).
  split.
  - exists q, g, [p0; p1; p2; p3; p4; p5]. repeat split; reflexivity.
  - intros pre n Hpre.
    assert (Hinv : grasp_invariant (grasp n)).
    { pose proof (main_loop_invariant pre initial_node_state initial_invariant)
        as H.
      unfold main in Hpre. rewrite Hpre in H. exact H. }
    destruct (publish_ok w n q g p0 p1 p2 p3 p4 p5 Hinv) as (s' & _ & _ & Hp).
    eexists. exact Hp.
Qed.

Lemma success_fields_present_witness :
  get_arm_data (sample_world 0.9 2 7)
    = Ok (mk_arm_data (Some sample_joints) None (Some (Some 0.9))
                      (Some sample_pose) true) /\
  (exists q g p,
     Some sample_joints = Some q /\
     Some (Some 0.9) = Some (Some g) /\
     Some sample_pose = Some p /\
     List.length p = 6%nat) /\
  (forall pre n,
     main pre = (n, None) ->
     exists n',
       publish (sample_world 0.9 2 7)
               (mk_arm_data (Some sample_joints) None (Some (Some 0.9))
                            (Some sample_pose) true) n = Ok n').
Proof.
  split; [reflexivity|].
  apply (success_fields_present (sample_world 0.9 2 7)
           (mk_arm_data (Some sample_joints) None (Some (Some 0.9))
                        (Some sample_pose) true));
    reflexivity.
Defined.

(** ** Further properties of the fetch *)

(** Failed requests are swallowed: when no answered call lacks its field
    and at least one of the three calls times out, cannot connect or
    answers with a status other than 200, [get_arm_data] returns a
    reading, and the reading has [success] false. *)
Theorem request_failure_swallowed (w : world) :
  lacks_field always_readable (getq w) = false ->
  lacks_field always_readable (get_gripper w) = false ->
  lacks_field pose_unreadable (getpos_euler w) = false ->
  request_failed (getq w) || request_failed (get_gripper w)
    || request_failed (getpos_euler w) = true ->
  exists d, get_arm_data w = Ok d /\ success d = false.
Proof.
  destruct w as [rq rg rp t ns]. run_stmt. unfold always_readable.
  destruct rq as [| |[sq [| |q]]], rg as [| |[sg [| |g]]],
           rp as [| |[sp [| |p]]]; simpl;
    repeat match goal with
           | |- context [(?x =? 200)%Z] => destruct (x =? 200)%Z; simpl
           end;
    try discriminate;
    try (intros; eexists; split; reflexivity);
    destruct p as [|p0 [|p1 [|p2 [|p3 [|p4 [|p5 rest]]]]]]; simpl;
    try discriminate;
    intros; eexists; split; reflexivity.
Qed.

Lemma request_failure_swallowed_witness :
  lacks_field always_readable (getq (timeout_world 0 0)) = false /\
  lacks_field always_readable (get_gripper (timeout_world 0 0)) = false /\
  lacks_field pose_unreadable (getpos_euler (timeout_world 0 0)) = false /\
  request_failed (getq (timeout_world 0 0))
    || request_failed (get_gripper (timeout_world 0 0))
    || request_failed (getpos_euler (timeout_world 0 0)) = true /\
  exists d, get_arm_data (timeout_world 0 0) = Ok d /\ success d = false.
Proof.
  repeat (split; [reflexivity|]).
  apply (request_failure_swallowed (timeout_world 0 0)); reflexivity.
Defined.

(** ** A second scenario *)

(** From the initial state, the distances 0.5, 0.9, 0.5 at times 0, 0.3,
    0.4 give the flags 0, 0, 0: the sample at 0.3 is outside the band and
    resets the state, and the entry at 0.4 starts a new run. *)
Theorem scenario_reset_flags :
  exists states,
    feed initial_grasp_state [(0.5, 0); (0.9, 0.3); (0.5, 0.4)] = Ok states /\
    map stable_flag states = [0; 0; 0]%Z /\
    nth_error states 1 = Some reset_state /\
    nth_error states 2 = Some (entered_at 0.4).
Proof. eexists. repeat split; vm_compute; reflexivity. Qed.

(** * Further properties of the code *)

(** ** The reading [get_arm_data] returns *)

Ltac fetch_cases w :=
  destruct w as [rq rg rp t ns]; run_stmt;
  destruct rq as [| |[sq [| |q]]], rg as [| |[sg [| |g]]],
           rp as [| |[sp [| |p]]]; simpl;
  repeat match goal with
         | |- context [(?x =? 200)%Z] =>
             destruct (Z.eqb_spec x 200); simpl
         end;
  try match goal with
      | p : list float |- _ =>
          destruct p as [|p0 [|p1 [|p2 [|p3 [|p4 [|p5 rest]]]]]]; simpl
      end.

(** Whatever the service answers, a returned reading has [success] true
    exactly when its joint angles, raw gripper distance and pose are all
    present; its ["gripper"] entry is still None; and a pose that is
    present has exactly six elements, however many the service sent. *)
Theorem reading_shape (w : world) (d : arm_data) :
  get_arm_data w = Ok d ->
  (success d = true <->
     jointstate d <> None /\ get_gripper_raw d <> None /\ pose d <> None) /\
  gripper d = None /\
  (forall p, pose d = Some p -> List.length p = 6%nat).
Proof.
  fetch_cases w; intros H; inversion H; subst; clear H; simpl;
    (split; [split; [try discriminate; intros _; repeat split; discriminate
                    | intros (H1 & H2 & H3); try reflexivity;
                      first [now elim H1 | now elim H2 | now elim H3]]
            | split; [reflexivity
                     | intros l Hl; inversion Hl; reflexivity]]).
Qed.

Lemma reading_shape_witness :
  get_arm_data (timeout_world 0 0)
    = Ok (mk_arm_data (Some sample_joints) None None None false) /\
  (false = true <->
     Some sample_joints <> None /\ @None float <> None /\
     @None (list float) <> None) /\
  @None (list pynum) = None /\
  (forall p, @None (list float) = Some p -> List.length p = 6%nat).
Proof.
  split; [reflexivity|].
  apply (reading_shape (timeout_world 0 0)
           (mk_arm_data (Some sample_joints) None None None false)).
  reflexivity.
Defined.

(** [get_arm_data] returns a reading marked successful exactly when all
    three calls answer with status 200 and carry their field, the pose
    with at least six elements; a null field, another status, a failed
    request or a raised exception each rule it out. *)
Theorem success_iff_all_answered (w : world) :
  (exists d, get_arm_data w = Ok d /\ success d = true) <->
  (exists q g p0 p1 p2 p3 p4 p5 rest,
     getq w = reply_ok q /\
     get_gripper w = reply_ok g /\
     getpos_euler w = reply_ok (p0 :: p1 :: p2 :: p3 :: p4 :: p5 :: rest)).
Proof.
  split.
  - intros (d & Hd & Hs).
    destruct (get_arm_data_success w d Hd Hs)
      as (q & g & p0 & p1 & p2 & p3 & p4 & p5 & rest & Hq & Hg & Hp & _).
    exists q, g, p0, p1, p2, p3, p4, p5, rest. auto.
  - intros (q & g & p0 & p1 & p2 & p3 & p4 & p5 & rest & Hq & Hg & Hp).
    eexists. split.
    + apply (get_arm_data_ok w q g p0 p1 p2 p3 p4 p5 rest Hq Hg Hp).
    + reflexivity.
Qed.



(** A request that raises ends the [try]: the reading returned keeps what
    the earlier calls stored, and the field of the failed call and of
    every later call stays unset, whatever the later answers would be. *)
Theorem exception_leaves_later_fields_unset (w : world) (d : arm_data) :
  get_arm_data w = Ok d ->
  (post (getq w) = Raise RequestException -> d = arm_data_init) /\
  (post (get_gripper w) = Raise RequestException ->
     gripper_raw d = None /\ pose d = None /\ success d = false) /\
  (post (getpos_euler w) = Raise RequestException ->
     pose d = None /\ success d = false).
Proof.
  fetch_cases w; intros H; inversion H; subst; clear H; simpl;
    repeat split; try reflexivity; intros; discriminate.
Qed.

Lemma exception_leaves_later_fields_unset_witness :
  get_arm_data (timeout_world 0 0)
    = Ok (mk_arm_data (Some sample_joints) None None None false) /\
  post (get_gripper (timeout_world 0 0)) = Raise RequestException /\
  @None (option float) = None /\ @None (list float) = None /\ false = false.
Proof.
  split; [reflexivity|]. split; [reflexivity|].
  apply (proj1 (proj2 (exception_leaves_later_fields_unset
           (timeout_world 0 0)
           (mk_arm_data (Some sample_joints) None None None false)
           eq_refl))).
  reflexivity.
Defined.

(** ** The tracker *)

(** After any update that returns, [in_range] says whether the sample just
    processed was inside the band, and the flag can be set only on a
    tick that found the state already in range: the sample is inside the
    band, the entry time is kept, and either the flag was set before or
    this tick's elapsed time reached the duration. *)
Theorem update_postcondition (s s' : grasp_state) (d now : float) :
  update s d now = Ok s' ->
  in_range s' = cur_in_range d /\
  (is_stable_grasp s' = true ->
     cur_in_range d = true /\
     in_range s = true /\
     exists t0,
       enter_time s = Some t0 /\ enter_time s' = Some t0 /\
       (is_stable_grasp s = true \/
        (GRASP_STABLE_DURATION <=? now - t0) = true)).
Proof.
  unfold update.
  destruct (cur_in_range d) eqn:Hd.
  - destruct (in_range s) eqn:Hr; simpl.
    + destruct (enter_time s) as [t0|] eqn:He; [|discriminate].
      destruct (GRASP_STABLE_DURATION <=? now - t0) eqn:Hc;
        intros H; inversion H; subst; clear H; simpl.
      * split; [reflexivity|]. intros _. repeat split.
        exists t0. repeat split; auto.
      * split; [exact Hr|]. intros Hst. repeat split.
        exists t0. repeat split; auto.
    + intros H; inversion H; subst; simpl. split; [reflexivity|discriminate].
  - intros H; inversion H; subst; simpl. split; [reflexivity|discriminate].
Qed.

Lemma update_postcondition_witness :
  update (entered_at 0) 0.5 0.9 = Ok (mk_grasp_state true (Some 0) true) /\
  true = cur_in_range 0.5 /\
  (true = true ->
     cur_in_range 0.5 = true /\
     in_range (entered_at 0) = true /\
     exists t0,
       enter_time (entered_at 0) = Some t0 /\ Some 0 = Some t0 /\
       (is_stable_grasp (entered_at 0) = true \/
        (GRASP_STABLE_DURATION <=? 0.9 - t0) = true)).
Proof.
  split; [reflexivity|].
  apply (update_postcondition (entered_at 0)
           (mk_grasp_state true (Some 0) true) 0.5 0.9).
  reflexivity.
Defined.

(** Comparison of a binary64 value with itself. *)
Lemma SFcompare_refl (x : spec_float) :
  x <> S754_nan -> SFcompare x x = Some Eq.
Proof.
  destruct x as [s|s| |s m e]; simpl; intros H.
  - reflexivity.
  - destruct s; reflexivity.
  - now elim H.
  - destruct s; rewrite Z.compare_refl;
      change (Pos.compare_cont Eq m m) with (m ?= m)%positive;
      rewrite Pos.compare_refl; reflexivity.
Qed.

Lemma is_nan_Prim2SF (x : float) : is_nan x = true -> Prim2SF x = S754_nan.
Proof.
  unfold is_nan. rewrite eqb_spec. unfold SFeqb. intros H.
  destruct (Prim2SF x) as [s|s| |s m e] eqn:Hx; try reflexivity;
    rewrite SFcompare_refl in H by discriminate; discriminate H.
Qed.

(** A NaN distance (Python's json module reads the literal NaN as one) is
    not inside the band: the update resets the state, from any state, and
    the flag of the tick is 0. *)
Theorem nan_distance_resets (s : grasp_state) (d now : float) :
  is_nan d = true ->
  cur_in_range d = false /\
  update s d now = Ok reset_state /\
  stable_flag reset_state = 0%Z.
Proof.
  intros H. apply is_nan_Prim2SF in H.
  assert (Hd : cur_in_range d = false).
  { unfold cur_in_range. rewrite (ltb_spec min_gripper_distance d).
    unfold SFltb. rewrite H.
    destruct (Prim2SF min_gripper_distance); reflexivity. }
  repeat split; [exact Hd | apply update_out; exact Hd].
Qed.

Lemma nan_distance_resets_witness :
  is_nan nan = true /\
  cur_in_range nan = false /\
  update (mk_grasp_state true (Some 0) true) nan 1 = Ok reset_state /\
  stable_flag reset_state = 0%Z.
Proof.
  split; [reflexivity|].
  apply (nan_distance_resets (mk_grasp_state true (Some 0) true) nan 1).
  reflexivity.
Defined.

(** ** Runs of updates *)

Lemma feed_cons (s : grasp_state) (d t : float) (rest : list (float * float))
      (states : list grasp_state) :
  feed s ((d, t) :: rest) = Ok states ->
  exists s1 tl, states = s1 :: tl /\ update s d t = Ok s1 /\ feed s1 rest = Ok tl.
Proof.
  simpl. destruct (update s d t) as [s1|x] eqn:Hu; [|discriminate].
  destruct (feed s1 rest) as [tl|x] eqn:Hf; [|discriminate].
  intros H. inversion H; subst. exists s1, tl. repeat split; assumption.
Qed.

Lemma feed_length (samples : list (float * float)) :
  forall s states,
    feed s samples = Ok states -> List.length states = List.length samples.
Proof.
  induction samples as [|[d t] rest IH]; intros s states H.
  - inversion H. reflexivity.
  - destruct (feed_cons s d t rest states H) as (s1 & tl & -> & _ & Hf).
    simpl. f_equal. exact (IH s1 tl Hf).
Qed.

(** Each state of a run is the update of the one before it. *)
Lemma feed_succ (samples : list (float * float)) :
  forall s states k a,
    feed s samples = Ok states ->
    nth_error (s :: states) k = Some a ->
    forall b, nth_error states k = Some b ->
    exists d t, nth_error samples k = Some (d, t) /\ update a d t = Ok b.
Proof.
  induction samples as [|[d t] rest IH]; intros s states k a H Ha b Hb.
  - inversion H; subst. destruct k; discriminate Hb.
  - destruct (feed_cons s d t rest states H) as (s1 & tl & -> & Hu & Hf).
    destruct k as [|k]; simpl in *.
    + inversion Ha; inversion Hb; subst. exists d, t. auto.
    + exact (IH s1 tl k a Hf Ha b Hb).
Qed.

(** What a state in range certifies about the run from the initial
    state: the sample at which the current run was entered, and for a
    set flag a later tick of the same run that reached the duration. *)
Lemma run_certificate (samples : list (float * float))
      (states : list grasp_state) :
  feed initial_grasp_state samples = Ok states ->
  forall k sk,
    nth_error states k = Some sk ->
    (is_stable_grasp sk = true -> in_range sk = true) /\
    (in_range sk = true ->
     exists i di ti,
       (i <= k)%nat /\
       nth_error samples i = Some (di, ti) /\
       enter_time sk = Some ti /\
       (forall m d t, (i <= m <= k)%nat ->
                      nth_error samples m = Some (d, t) ->
                      cur_in_range d = true) /\
       (is_stable_grasp sk = true ->
        exists j dj tj,
          (i < j <= k)%nat /\
          nth_error samples j = Some (dj, tj) /\
          (GRASP_STABLE_DURATION <=? tj - ti) = true)).
Proof.
  intros Hf k. induction k as [|k IH]; intros sk Hk.
  - destruct (feed_succ samples initial_grasp_state states 0
                initial_grasp_state Hf eq_refl sk Hk) as (d & t & Hs & Hu).
    destruct (cur_in_range d) eqn:Hd.
    + rewrite (update_enter initial_grasp_state d t Hd eq_refl) in Hu. inversion Hu; subst.
      split; [discriminate|]. intros _.
      exists 0%nat, d, t. repeat split; auto; try lia.
      * intros m d' t' Hm Hn. assert (m = 0)%nat by lia. subst m.
        rewrite Hs in Hn. inversion Hn; subst. exact Hd.
      * discriminate.
    + rewrite (update_out initial_grasp_state d t Hd) in Hu.
      inversion Hu; subst. split; discriminate.
  - assert (Hlt : (k < List.length states)%nat).
    { assert (S k < List.length states)%nat
        by (apply nth_error_Some; rewrite Hk; discriminate). lia. }
    destruct (nth_error states k) as [a|] eqn:Ha;
      [|apply nth_error_None in Ha; lia].
    destruct (IH a eq_refl) as [Hst Hin].
    destruct (feed_succ samples initial_grasp_state states (S k) a Hf Ha sk Hk)
      as (d & t & Hs & Hu).
    destruct (cur_in_range d) eqn:Hd.
    + destruct (in_range a) eqn:Hr.
      * destruct (Hin eq_refl) as (i & di & ti & Hi & Hni & Het & Hall & Hj).
        rewrite (update_stay a d t ti Hd Hr Het) in Hu.
        inversion Hu; subst; clear Hu. simpl.
        split; [reflexivity|]. intros _.
        exists i, di, ti. repeat split; auto.
        -- intros m d' t' Hm Hn.
           destruct (Nat.eq_dec m (S k)) as [->|Hne].
           ++ rewrite Hs in Hn. inversion Hn; subst. exact Hd.
           ++ apply (Hall m d' t'); [lia | exact Hn].
        -- intros H. apply orb_true_iff in H. destruct H as [H|H].
           ++ destruct (Hj H) as (j & dj & tj & Hjr & Hnj & Hc).
              exists j, dj, tj. repeat split; auto; lia.
           ++ exists (S k), d, t. repeat split; auto; lia.
      * rewrite (update_enter a d t Hd Hr) in Hu. inversion Hu; subst.
        split; [discriminate|]. intros _.
        exists (S k), d, t. repeat split; auto.
        -- intros m d' t' Hm Hn. assert (m = S k) by lia. subst m.
           rewrite Hs in Hn. inversion Hn; subst. exact Hd.
        -- discriminate.
    + rewrite (update_out a d t Hd) in Hu. inversion Hu; subst.
      split; discriminate.
Qed.

(** From the initial state, a set flag after tick [k] certifies a dwell:
    there are ticks [i < j <= k] such that every sample from [i] to [k]
    is inside the band, the recorded entry time is the time of tick [i],
    and at tick [j] the time elapsed since tick [i] reached
    GRASP_STABLE_DURATION.  The flag is never set on the strength of
    samples from before an out-of-band sample. *)
Theorem stable_certifies_dwell (samples : list (float * float))
        (states : list grasp_state) (k : nat) (sk : grasp_state) :
  feed initial_grasp_state samples = Ok states ->
  nth_error states k = Some sk ->
  is_stable_grasp sk = true ->
  exists i j di ti dj tj,
    (i < j <= k)%nat /\
    nth_error samples i = Some (di, ti) /\
    nth_error samples j = Some (dj, tj) /\
    enter_time sk = Some ti /\
    (GRASP_STABLE_DURATION <=? tj - ti) = true /\
    (forall m d t, (i <= m <= k)%nat ->
                   nth_error samples m = Some (d, t) ->
                   cur_in_range d = true).
Proof.
  intros Hf Hk Hst.
  destruct (run_certificate samples states Hf k sk Hk) as [Hin Hcert].
  destruct (Hcert (Hin Hst)) as (i & di & ti & _ & Hni & Het & Hall & Hj).
  destruct (Hj Hst) as (j & dj & tj & Hjr & Hnj & Hc).
  exists i, j, di, ti, dj, tj. repeat split; auto; lia.
Qed.

Lemma stable_certifies_dwell_witness :
  feed initial_grasp_state [(0.5, 0); (0.5, 0.3); (0.5, 0.9)]
    = Ok [entered_at 0; entered_at 0; mk_grasp_state true (Some 0) true] /\
  exists i j di ti dj tj,
    (i < j <= 2)%nat /\
    nth_error [(0.5, 0); (0.5, 0.3); (0.5, 0.9)] i = Some (di, ti) /\
    nth_error [(0.5, 0); (0.5, 0.3); (0.5, 0.9)] j = Some (dj, tj) /\
    Some 0 = Some ti /\
    (GRASP_STABLE_DURATION <=? tj - ti) = true /\
    (forall m d t, (i <= m <= 2)%nat ->
                   nth_error [(0.5, 0); (0.5, 0.3); (0.5, 0.9)] m = Some (d, t) ->
                   cur_in_range d = true).
Proof.
  split; [reflexivity|].
  apply (stable_certifies_dwell
           [(0.5, 0); (0.5, 0.3); (0.5, 0.9)]
           [entered_at 0; entered_at 0; mk_grasp_state true (Some 0) true]
           2 (mk_grasp_state true (Some 0) true));
    reflexivity.
Defined.

(** ** The loop as a whole *)

(** The four ways an event is handled from a state that satisfies the
    invariants. *)
Lemma handle_event_spec (e : event) (n : node_state) :
  grasp_invariant (grasp n) ->
  (is_tick e = false /\ handle_event e n = Ok n) \/
  (is_tick e = true /\
   exists x, get_arm_data (ev_world e) = Raise x /\ handle_event e n = Raise x) \/
  (is_tick e = true /\
   exists d, get_arm_data (ev_world e) = Ok d /\ success d = false /\
             handle_event e n = Ok n) \/
  (is_tick e = true /\
   exists q g p0 p1 p2 p3 p4 p5 s',
     get_arm_data (ev_world e)
       = Ok (mk_arm_data (Some q) None (Some (Some g))
                         (Some [p0; p1; p2; p3; p4; p5]) true) /\
     update (grasp n) g (time (ev_world e)) = Ok s' /\
     grasp_invariant s' /\
     handle_event e n =
       Ok {| grasp := s';
             sent := sent n ++
               [ {| output_id := "jointstate";
                    values := map PyFloat q
                              ++ [PyFloat g; PyInt (stable_flag s')]
                              ++ map PyFloat [p0; p1; p2; p3; p4; p5];
                    type := float32;
                    timestamp := time_ns (ev_world e) |} ] |}).
Proof.
  intros Hinv. unfold handle_event. fold (is_tick e).
  destruct (is_tick e) eqn:Ht.
  - right. destruct (get_arm_data (ev_world e)) as [d|x] eqn:Hd.
    + destruct (success d) eqn:Hs.
      * right. right. split; [reflexivity|].
        destruct (get_arm_data_success _ _ Hd Hs)
          as (q & g & p0 & p1 & p2 & p3 & p4 & p5 & rest & _ & _ & _ & ->).
        destruct (publish_ok (ev_world e) n q g p0 p1 p2 p3 p4 p5 Hinv)
          as (s' & Hu & Hi & Hp).
        exists q, g, p0, p1, p2, p3, p4, p5, s'. auto.
      * right. left. split; [reflexivity|]. exists d. auto.
    + left. split; [reflexivity|]. exists x. auto.
  - left. split; [reflexivity|].
    destruct ((ev_type e =? "INPUT")%string && (ev_id e =? "stop")%string);
      reflexivity.
Qed.

(** Events other than tick inputs change nothing: the loop over all
    events ends in the same state, with the same outputs and the same
    exception if any, as the loop over the tick inputs alone. *)
Theorem non_tick_events_ignored (events : list event) (n : node_state) :
  main_loop (filter is_tick events) n = main_loop events n.
Proof.
  revert n. induction events as [|e rest IH]; intros n; simpl.
  - reflexivity.
  - destruct (is_tick e) eqn:Ht; simpl.
    + destruct (handle_event e n); [apply IH | reflexivity].
    + assert (H : handle_event e n = Ok n).
      { unfold handle_event. fold (is_tick e). rewrite Ht.
        destruct ((ev_type e =? "INPUT")%string && (ev_id e =? "stop")%string);
          reflexivity. }
      rewrite H. apply IH.
Qed.

Lemma last_cons {A : Type} (a d : A) (l : list A) :
  last (a :: l) d = last l a.
Proof.
  revert a d. induction l as [|b l IH]; intros a d; [reflexivity|].
  change (last (a :: b :: l) d) with (last (b :: l) d).
  rewrite (IH b d), (IH b a). reflexivity.
Qed.

Lemma gripper_of_sent (w : world) (q p : list float) (g : float) (f : Z) :
  List.length p = 6%nat ->
  gripper_of {| output_id := "jointstate";
                values := map PyFloat q ++ [PyFloat g; PyInt f] ++ map PyFloat p;
                type := float32;
                timestamp := time_ns w |}
    = Some (PyFloat g, PyInt f).
Proof.
  intros Hp. unfold gripper_of.
  cbv beta iota delta [values].
  set (v := map PyFloat q ++ [PyFloat g; PyInt f] ++ map PyFloat p).
  assert (Hk : (List.length v - 8 = List.length (map PyFloat q))%nat).
  { unfold v. rewrite !length_app, !length_map. simpl. rewrite Hp.
    apply Nat.add_sub. }
  rewrite Hk. unfold v.
  rewrite (nth_error_app2 (map PyFloat q) _ (Nat.le_refl _)).
  rewrite Nat.sub_diag.
  change (nth_error ([PyFloat g; PyInt f] ++ map PyFloat p) 0)
    with (Some (PyFloat g)).
  cbv iota.
  rewrite (nth_error_app2 (map PyFloat q) _ (Nat.le_succ_diag_r _)).
  replace (S (List.length (map PyFloat q)) - List.length (map PyFloat q))%nat
    with 1%nat by lia.
  reflexivity.
Qed.


(** The loop, when it ends without exception, as a run of the tracker
    over the samples of its publishing ticks. *)
Lemma samples_of_cons (e : event) (rest : list event) :
  samples_of (e :: rest)
    = match sample_of e with
      | Some x => x :: samples_of rest
      | None => samples_of rest
      end.
Proof. reflexivity. Qed.

Lemma filter_publishes_cons (e : event) (rest : list event) :
  filter publishes (e :: rest)
    = if publishes e then e :: filter publishes rest
      else filter publishes rest.
Proof. reflexivity. Qed.

Lemma feed_cons_ok (s s1 : grasp_state) (d t : float)
      (rest : list (float * float)) (tl : list grasp_state) :
  update s d t = Ok s1 -> feed s1 rest = Ok tl ->
  feed s ((d, t) :: rest) = Ok (s1 :: tl).
Proof. intros Hu Hf. simpl. rewrite Hu, Hf. reflexivity. Qed.

(** Which events publish, and the sample they hand to the tracker. *)
Lemma silent_event (e : event) :
  is_tick e = false \/
  (exists x, get_arm_data (ev_world e) = Raise x) \/
  (exists d, get_arm_data (ev_world e) = Ok d /\ success d = false) ->
  sample_of e = None /\ publishes e = false.
Proof.
  unfold publishes, sample_of, reading_of.
  intros [Ht | [(x & Hd) | (d & Hd & Hs)]].
  - rewrite Ht. auto.
  - rewrite Hd. destruct (is_tick e); auto.
  - rewrite Hd, Hs. destruct (is_tick e); auto.
Qed.

Lemma publishing_event (e : event) (q : list float) (g : float)
      (p : list float) :
  is_tick e = true ->
  get_arm_data (ev_world e)
    = Ok (mk_arm_data (Some q) None (Some (Some g)) (Some p) true) ->
  sample_of e = Some (g, time (ev_world e)) /\ publishes e = true.
Proof.
  unfold publishes, sample_of, reading_of. intros Ht Hd.
  rewrite Ht, Hd. simpl. auto.
Qed.

Lemma main_loop_run (events : list event) :
  forall n n',
    grasp_invariant (grasp n) ->
    main_loop events n = (n', None) ->
    exists states,
      feed (grasp n) (samples_of events) = Ok states /\
      grasp n' = last states (grasp n) /\
      map gripper_of (sent n')
        = map gripper_of (sent n)
          ++ map gripper_pair (combine (samples_of events) states) /\
      map timestamp (sent n')
        = map timestamp (sent n)
          ++ map (fun e => time_ns (ev_world e)) (filter publishes events).
Proof.
  induction events as [|e rest IH]; intros n n' Hinv Hrun; simpl in Hrun.
  - inversion Hrun; subst. exists []. simpl. rewrite !app_nil_r. auto.
  - rewrite samples_of_cons, filter_publishes_cons.
    destruct (handle_event_spec e n Hinv)
      as [[Ht He] | [[Ht (x & Hd & He)] | [[Ht (d & Hd & Hs & He)]
         | [Ht (q & g & p0 & p1 & p2 & p3 & p4 & p5 & s' & Hd & Hu & Hi & He)]]]];
      rewrite He in Hrun; try discriminate Hrun.
    + destruct (silent_event e (or_introl Ht)) as [-> ->].
      exact (IH n n' Hinv Hrun).
    + destruct (silent_event e (or_intror (or_intror (ex_intro _ d (conj Hd Hs)))))
        as [-> ->].
      exact (IH n n' Hinv Hrun).
    + destruct (publishing_event e q g _ Ht Hd) as [-> ->].
      pose proof (fun Hi' => IH _ n' Hi' Hrun) as Hex. cbn [grasp sent] in Hex.
      destruct (Hex Hi) as (states & Hf & Hl & Hg & Hts). clear Hex.
      exists (s' :: states).
      rewrite (feed_cons_ok _ _ _ _ _ _ Hu Hf), last_cons.
      split; [reflexivity|]. split; [exact Hl|]. split.
      * rewrite Hg, map_app, <- app_assoc. f_equal.
        rewrite (map_cons gripper_of).
        rewrite (gripper_of_sent (ev_world e) q [p0; p1; p2; p3; p4; p5] g
                   (stable_flag s') eq_refl).
        reflexivity.
      * rewrite Hts, map_app, <- app_assoc. reflexivity.
Qed.

(** When the loop ends without exception, it has sent one output for
    every tick whose fetch was marked successful and none for any other
    event, in the order of the ticks, each stamped with the [time_ns]
    reading of its own tick. *)
Theorem outputs_follow_ticks (events : list event) (n : node_state) :
  main events = (n, None) ->
  map timestamp (sent n)
    = map (fun e => time_ns (ev_world e)) (filter publishes events) /\
  List.length (sent n) = List.length (filter publishes events).
Proof.
  intros H.
  destruct (main_loop_run events initial_node_state n initial_invariant H)
    as (states & _ & _ & _ & Hts).
  simpl in Hts. split; [exact Hts|].
  rewrite <- (length_map timestamp), Hts, length_map. reflexivity.
Qed.

Lemma outputs_follow_ticks_witness :
  main [tick (sample_world 0.5 0 11); stop (sample_world 0.5 0 12);
        tick (timeout_world 1 13); tick (sample_world 0.5 2 14)]
    = ({| grasp := mk_grasp_state true (Some 0) true;
          sent := [ mk_output "jointstate"
                      (map PyFloat sample_joints ++ [PyFloat 0.5; PyInt 0]
                       ++ map PyFloat sample_pose) float32 11;
                    mk_output "jointstate"
                      (map PyFloat sample_joints ++ [PyFloat 0.5; PyInt 1]
                       ++ map PyFloat sample_pose) float32 14 ] |}, None) /\
  [11; 14]%Z
    = map (fun e => time_ns (ev_world e))
          (filter publishes
             [tick (sample_world 0.5 0 11); stop (sample_world 0.5 0 12);
              tick (timeout_world 1 13); tick (sample_world 0.5 2 14)]) /\
  2%nat
    = List.length
        (filter publishes
           [tick (sample_world 0.5 0 11); stop (sample_world 0.5 0 12);
            tick (timeout_world 1 13); tick (sample_world 0.5 2 14)]).
Proof.
  split; [reflexivity|].
  apply (outputs_follow_ticks
           [tick (sample_world 0.5 0 11); stop (sample_world 0.5 0 12);
            tick (timeout_world 1 13); tick (sample_world 0.5 2 14)]
           {| grasp := mk_grasp_state true (Some 0) true;
              sent := [ mk_output "jointstate"
                          (map PyFloat sample_joints ++ [PyFloat 0.5; PyInt 0]
                           ++ map PyFloat sample_pose) float32 11;
                        mk_output "jointstate"
                          (map PyFloat sample_joints ++ [PyFloat 0.5; PyInt 1]
                           ++ map PyFloat sample_pose) float32 14 ] |}).
  reflexivity.
Defined.









(** ** The converse: a dwell sets the flag *)

Lemma feed_nth (samples : list (float * float)) :
  forall s states k d t,
    feed s samples = Ok states ->
    nth_error samples k = Some (d, t) ->
    exists a b,
      nth_error (s :: states) k = Some a /\
      nth_error states k = Some b /\
      update a d t = Ok b.
Proof.
  induction samples as [|[d0 t0] rest IH]; intros s states k d t Hf Hn.
  - destruct k; discriminate Hn.
  - destruct (feed_cons s d0 t0 rest states Hf) as (s1 & tl & -> & Hu & Hf').
    destruct k as [|k]; simpl in Hn.
    + inversion Hn; subst. exists s, s1. auto.
    + destruct (IH s1 tl k d t Hf' Hn) as (a & b & Ha & Hb & Hab).
      exists a, b. auto.
Qed.

(** From the initial state: when the run that contains tick [k] was
    entered at tick [i] (the first tick, or the tick after an
    out-of-band sample), every sample from [i] to [k] is inside the
    band, and some tick [j] with [i < j <= k] has
    [t_j - t_i >= GRASP_STABLE_DURATION], then the state after tick [k]
    is in range with entry time [t_i] and has the flag set, whatever the
    times of the other ticks are. *)
Theorem dwell_sets_flag (samples : list (float * float))
        (states : list grasp_state) (i j k : nat) (di ti dj tj : float) :
  feed initial_grasp_state samples = Ok states ->
  (i < j <= k)%nat ->
  (k < List.length samples)%nat ->
  (i = 0%nat \/
   exists d t, nth_error samples (i - 1) = Some (d, t) /\
               cur_in_range d = false) ->
  (forall m d t, (i <= m <= k)%nat ->
                 nth_error samples m = Some (d, t) ->
                 cur_in_range d = true) ->
  nth_error samples i = Some (di, ti) ->
  nth_error samples j = Some (dj, tj) ->
  (GRASP_STABLE_DURATION <=? tj - ti) = true ->
  exists sk,
    nth_error states k = Some sk /\
    in_range sk = true /\
    enter_time sk = Some ti /\
    is_stable_grasp sk = true.
Proof.
  intros Hf Hij Hk Hentry Hall Hi Hj Hc.
  assert (Hstart : nth_error states i = Some (entered_at ti)).
  { destruct (feed_nth samples _ states i di ti Hf Hi) as (a & b & Ha & Hb & Hu).
    assert (Hr : in_range a = false).
    { destruct Hentry as [-> | (d & t & Hp & Hd)].
      - inversion Ha; subst. reflexivity.
      - destruct i as [|i']; [inversion Ha; subst; reflexivity|].
        simpl in Ha. replace (S i' - 1)%nat with i' in Hp by lia.
        destruct (feed_nth samples _ states i' d t Hf Hp)
          as (a' & b' & _ & Hb' & Hu').
        rewrite Hb' in Ha. inversion Ha; subst.
        rewrite (update_out a' d t Hd) in Hu'. inversion Hu'; subst.
        reflexivity. }
    rewrite (update_enter a di ti (Hall i di ti ltac:(lia) Hi) Hr) in Hu.
    inversion Hu; subst. exact Hb. }
  assert (Hrun : forall n, (i + n <= k)%nat ->
            exists sm,
              nth_error states (i + n) = Some sm /\
              in_range sm = true /\
              enter_time sm = Some ti /\
              ((j <= i + n)%nat -> is_stable_grasp sm = true)).
  { induction n as [|n IHn]; intros Hn.
    - rewrite Nat.add_0_r. exists (entered_at ti).
      repeat split; auto. intros H; lia.
    - destruct (IHn ltac:(lia)) as (sm & Hsm & Hr & He & Hst).
      replace (i + S n)%nat with (S (i + n)) by lia.
      destruct (nth_error samples (S (i + n))) as [[d t]|] eqn:Hs;
        [|apply nth_error_None in Hs; lia].
      destruct (feed_nth samples _ states (S (i + n)) d t Hf Hs)
        as (a & b & Ha & Hb & Hu).
      simpl in Ha. rewrite Hsm in Ha. inversion Ha; subst a.
      rewrite (update_stay sm d t ti (Hall (S (i + n)) d t ltac:(lia) Hs) Hr He)
        in Hu.
      inversion Hu; subst b. exists
        {| in_range := true; enter_time := Some ti;
           is_stable_grasp :=
             is_stable_grasp sm || (GRASP_STABLE_DURATION <=? t - ti) |}.
      repeat split; auto. simpl. intros Hjm.
      destruct (Nat.eq_dec j (S (i + n))) as [->|Hne].
      + rewrite Hs in Hj. inversion Hj; subst. rewrite Hc. apply orb_true_r.
      + rewrite Hst by lia. reflexivity. }
  destruct (Hrun (k - i)%nat ltac:(lia)) as (sk & Hsk & Hr & He & Hst).
  replace (i + (k - i))%nat with k in * by lia.
  exists sk. repeat split; auto. apply Hst. lia.
Qed.

Lemma dwell_sets_flag_witness :
  feed initial_grasp_state [(0.9, 0); (0.5, 1); (0.5, 1.5); (0.5, 2)]
    = Ok [reset_state; entered_at 1; entered_at 1;
          mk_grasp_state true (Some 1) true] /\
  exists sk,
    nth_error [reset_state; entered_at 1; entered_at 1;
               mk_grasp_state true (Some 1) true] 3 = Some sk /\
    in_range sk = true /\
    enter_time sk = Some 1 /\
    is_stable_grasp sk = true.
Proof.
  split; [reflexivity|].
  apply (dwell_sets_flag [(0.9, 0); (0.5, 1); (0.5, 1.5); (0.5, 2)]
           [reset_state; entered_at 1; entered_at 1;
            mk_grasp_state true (Some 1) true]
           1 3 3 0.5 1 0.5 2).
  - reflexivity.
  - lia.
  - simpl; lia.
  - right. exists 0.9, 0. split; reflexivity.
  - intros m d t Hm Hn.
    destruct m as [|[|[|[|m]]]]; try lia; inversion Hn; reflexivity.
  - reflexivity.
  - reflexivity.
  - reflexivity.
Defined.
